(** * inventory_system.py: a shallow embedding and its properties

    The program is one Python module: a module-level dictionary
    [stock_data] from item names to quantities, functions that add,
    remove, query and list entries, and two functions that load the
    dictionary from, and save it to, a JSON file.

    The embedding follows the module function by function.  Python values
    are a small tagged union, the dictionary is an association list in
    insertion order, and every function is a computation over a [world]
    (the dictionary, the file system, the logging output and the lists the
    caller passed by reference) that either returns or raises. *)

From Stdlib Require Import ZArith Ascii String.
From stdpp Require Import base option list strings gmap pretty.

Local Open Scope Z_scope.
Local Set Warnings "-register-all".

(** ** Python values *)

Module Py.

(** A float, as far as [int()] can observe it: not-a-number, an infinity,
    or the finite number [m * 2^e]. *)
Inductive pyfloat :=
| FNan
| FInf (negative : bool)
| FFinite (m e : Z).

(** The values the module's functions may receive as arguments, which are
    also the values [json.load] produces: [None], [bool], [int], [float],
    [str], [list] and [dict] with [str] keys.  Strings are ASCII text. *)
Inductive value :=
| VNone
| VBool (b : bool)
| VInt (n : Z)
| VFloat (f : pyfloat)
| VStr (s : string)
| VList (l : list value)
| VDict (d : list (string * value)).

(** The exception classes that occur in the module. *)
Inductive exn :=
| TypeError
| ValueError
| OverflowError
| KeyError
| OSError
| JSONDecodeError
| UnicodeDecodeError.

#[export] Instance exn_eq_dec : EqDecision exn.
Proof. solve_decision. Defined.

(** [issubclass e c]: [JSONDecodeError] and [UnicodeDecodeError] derive
    from [ValueError]; the other classes are unrelated. *)
Definition issubclass (e c : exn) : bool :=
  match e, c with
  | JSONDecodeError, ValueError => true
  | UnicodeDecodeError, ValueError => true
  | _, _ => bool_decide (e = c)
  end.

(** [except (c1, c2, ...)] catches [e] when it is an instance of one of
    the listed classes. *)
Definition caught (e : exn) (classes : list exn) : bool :=
  existsb (issubclass e) classes.

(** [isinstance(v, str)] *)
Definition isinstance_str (v : value) : bool :=
  match v with VStr _ => true | _ => false end.

(** [isinstance(v, int)]: [bool] is a subclass of [int]. *)
Definition isinstance_int (v : value) : bool :=
  match v with VInt _ | VBool _ => true | _ => false end.


(** The number an [int] instance stands for in arithmetic: [True] is 1 and
    [False] is 0. *)
Definition int_value (v : value) : option Z :=
  match v with
  | VInt n => Some n
  | VBool b => Some (if b then 1 else 0)
  | _ => None
  end.

(** Truth value: [not v] is [negb (truthy v)]. *)
Definition truthy (v : value) : bool :=
  match v with
  | VNone => false
  | VBool b => b
  | VInt n => negb (n =? 0)
  | VFloat (FFinite m _) => negb (m =? 0)
  | VFloat _ => true
  | VStr s => negb (bool_decide (s = ""))
  | VList l => negb (bool_decide (l = []))
  | VDict d => negb (bool_decide (d = []))
  end.

(** The text of a value known to be a [str], the number of a value known
    to be an [int]. *)
Definition as_str (v : value) : string :=
  match v with VStr s => s | _ => "" end.

Definition as_int (v : value) : Z := default 0 (int_value v).

(** *** [int(v)]

    [int] of a string reads base ten: white space, an optional sign,
    decimal digits in which single underscores may separate digits, white
    space.  Anything else is a [ValueError]. *)

Definition code (c : ascii) : Z := Z.of_N (N_of_ascii c).

(** C's [isspace] on ASCII: tab, line feed, vertical tab, form feed,
    carriage return and space. *)
Definition is_space (c : ascii) : bool :=
  (9 <=? code c) && (code c <=? 13) || (code c =? 32).

Definition digit_of (c : ascii) : option Z :=
  if (48 <=? code c) && (code c <=? 57) then Some (code c - 48) else None.

Definition is_underscore (c : ascii) : bool := code c =? 95.

Fixpoint lstrip (s : string) : string :=
  match s with
  | String c s' => if is_space c then lstrip s' else s
  | EmptyString => s
  end.

Fixpoint all_space (s : string) : bool :=
  match s with
  | String c s' => is_space c && all_space s'
  | EmptyString => true
  end.

(** The digits after the first one: [acc] is the number read so far.  The
    result is the number and the text left after it, or [None] when an
    underscore is not followed by a digit. *)
Fixpoint more_digits (acc : Z) (s : string) : option (Z * string) :=
  match s with
  | EmptyString => Some (acc, s)
  | String c s' =>
      match digit_of c with
      | Some d => more_digits (10 * acc + d) s'
      | None =>
          if is_underscore c then
            match s' with
            | String c' s'' =>
                match digit_of c' with
                | Some d => more_digits (10 * acc + d) s''
                | None => None
                end
            | EmptyString => None
            end
          else Some (acc, s)
      end
  end.

Definition unsigned_literal (s : string) : option Z :=
  match s with
  | String c s' =>
      match digit_of c with
      | Some d =>
          match more_digits d s' with
          | Some (n, rest) => if all_space rest then Some n else None
          | None => None
          end
      | None => None
      end
  | EmptyString => None
  end.

Definition int_of_str (s : string) : option Z :=
  match lstrip s with
  | String "+" s' => unsigned_literal s'
  | String "-" s' => Z.opp <$> unsigned_literal s'
  | s' => unsigned_literal s'
  end.

(** [int] of a float truncates towards zero. *)
Definition int_of_float (f : pyfloat) : exn + Z :=
  match f with
  | FNan => inl ValueError
  | FInf _ => inl OverflowError
  | FFinite m e => inr (if 0 <=? e then m * 2 ^ e else Z.quot m (2 ^ (- e)))
  end.

Definition py_int (v : value) : exn + Z :=
  match v with
  | VInt n => inr n
  | VBool b => inr (if b then 1 else 0)
  | VFloat f => int_of_float f
  | VStr s => match int_of_str s with Some n => inr n | None => inl ValueError end
  | VNone | VList _ | VDict _ => inl TypeError
  end.

End Py.
Export Py.

(** ** Dictionaries

    A Python [dict] keeps its keys in insertion order: assigning to a key
    that is present replaces the value where it stands, assigning to a new
    key appends it.  A list of pairs is a dictionary when no key occurs
    twice ([wf]). *)

Module Dict.

Abbreviation t V := (list (string * V)) (only parsing).

Section dict.
Context {V : Type}.

(** [d.get(k)] *)
Fixpoint get (d : t V) (k : string) : option V :=
  match d with
  | [] => None
  | (k', v) :: d' => if decide (k' = k) then Some v else get d' k
  end.

(** [d[k] = v] *)
Fixpoint set (d : t V) (k : string) (v : V) : t V :=
  match d with
  | [] => [(k, v)]
  | (k', v') :: d' =>
      if decide (k' = k) then (k', v) :: d' else (k', v') :: set d' k v
  end.

(** [del d[k]], for a key that is present: the pair of [k] goes, the
    others keep their order. *)
Definition del (d : t V) (k : string) : t V :=
  filter (λ kv, kv.1 ≠ k) d.

(** [d.update(items)]: the items are assigned in order. *)
Definition update (d : t V) (items : list (string * V)) : t V :=
  foldl (λ acc kv, set acc kv.1 kv.2) d items.

Definition keys (d : t V) : list string := d.*1.

Definition wf (d : t V) : Prop := NoDup (keys d).
End dict.
End Dict.

(** ** The world the module runs in *)

Inductive level := DEBUG | INFO | WARNING | ERROR.

(** What a logging call is given after the format string. *)
Inductive arg :=
| Obj (v : value)
| Exc (e : exn).

(** One call of [logging.<level>(msg, *args)]. *)
Record record := LogRecord {
  levelname : level;
  msg : string;
  args : list arg;
}.

(** What [open(file, "r", encoding="utf-8")] followed by [json.load] finds
    in a file that can be opened: bytes that are not UTF-8, text that is
    not JSON, or the text of a JSON document. *)
Inductive content :=
| BadEncoding
| BadJson
| Json (v : value).

(** The file system: the paths that exist with what they hold, and the
    paths on which [open] for reading, respectively for writing, fails with
    an [OSError] (a directory, a missing permission, a missing parent
    directory). *)
Record filesystem := FileSystem {
  files : gmap string content;
  unreadable : gset string;
  unwritable : gset string;
}.

Definition loc := positive.

Record world := World {
  stock_data : Dict.t Z;            (* the module-level dictionary *)
  fs : filesystem;
  records : list record;            (* logging output, oldest first *)
  stdout : list string;             (* lines printed *)
  heap : gmap loc (list string);    (* lists passed by reference *)
  now : string;                     (* str(datetime.now()) *)
}.

Definition set_stock_data (d : Dict.t Z) (w : world) : world :=
  World d (fs w) (records w) (stdout w) (heap w) (now w).
Definition set_fs (f : filesystem) (w : world) : world :=
  World (stock_data w) f (records w) (stdout w) (heap w) (now w).
Definition set_records (r : list record) (w : world) : world :=
  World (stock_data w) (fs w) r (stdout w) (heap w) (now w).
Definition set_stdout (o : list string) (w : world) : world :=
  World (stock_data w) (fs w) (records w) o (heap w) (now w).
Definition set_heap (h : gmap loc (list string)) (w : world) : world :=
  World (stock_data w) (fs w) (records w) (stdout w) h (now w).

(** ** Computations that return or raise *)

Inductive outcome (A : Type) :=
| Return (a : A)
| Raise (e : exn).
Arguments Return {A} a.
Arguments Raise {A} e.

Definition M (A : Type) : Type := world → outcome A * world.

Definition ret {A} (a : A) : M A := λ w, (Return a, w).

Definition bind {A B} (m : M A) (k : A → M B) : M B := λ w,
  match m w with
  | (Return a, w') => k a w'
  | (Raise e, w') => (Raise e, w')
  end.

Definition raise {A} (e : exn) : M A := λ w, (Raise e, w).

(** [try: body  except classes as e: handler e] *)
Definition try_except {A} (body : M A) (classes : list exn)
    (handler : exn → M A) : M A := λ w,
  match body w with
  | (Raise e, w') => if caught e classes then handler e w' else (Raise e, w')
  | r => r
  end.

Definition gets {A} (f : world → A) : M A := λ w, (Return (f w), w).
Definition modify (f : world → world) : M unit := λ w, (Return (), f w).

Definition lift {A} (r : exn + A) : M A :=
  match r with inl e => raise e | inr a => ret a end.

Declare Scope py_scope.
Delimit Scope py_scope with py.
Notation "x <- m ;; k" := (bind m (λ x, k))
  (at level 100, m at next level, right associativity,
   format "'[v' x  <-  m  ;;  '/' k ']'") : py_scope.
Notation "m ;;; k" := (bind m (λ _, k))
  (at level 100, right associativity,
   format "'[v' m  ;;;  '/' k ']'") : py_scope.
Local Open Scope py_scope.

(** The world after a computation, and what it gave. *)
Definition after {A} (m : M A) (w : world) : world := (m w).2.
Definition result {A} (m : M A) (w : world) : outcome A := (m w).1.

(** *** Primitives *)

Definition logging (l : level) (m : string) (a : list arg) : M unit :=
  modify (λ w, set_records (records w ++ [LogRecord l m a]) w).

Definition print (line : string) : M unit :=
  modify (λ w, set_stdout (stdout w ++ [line]) w).

(** [stock_data[k]] *)
Definition getitem (k : string) : M Z := λ w,
  match Dict.get (stock_data w) k with
  | Some v => (Return v, w)
  | None => (Raise KeyError, w)
  end.

(** [stock_data[k] = v] *)
Definition setitem (k : string) (v : Z) : M unit :=
  modify (λ w, set_stock_data (Dict.set (stock_data w) k v) w).

(** [del stock_data[k]] *)
Definition delitem (k : string) : M unit := λ w,
  match Dict.get (stock_data w) k with
  | Some _ => (Return (), set_stock_data (Dict.del (stock_data w) k) w)
  | None => (Raise KeyError, w)
  end.

(** [stock_data.clear()] *)
Definition clear : M unit := modify (set_stock_data []).

(** [os.path.exists(file)] *)
Definition os_path_exists (file : string) : M bool :=
  gets (λ w, bool_decide (is_Some (files (fs w) !! file))).

(** [json.load(fh)] for [fh = open(file, "r", encoding="utf-8")]. *)
Definition open_json_load (file : string) : M value := λ w,
  if decide (file ∈ unreadable (fs w)) then (Raise OSError, w) else
  match files (fs w) !! file with
  | None => (Raise OSError, w)
  | Some BadEncoding => (Raise UnicodeDecodeError, w)
  | Some BadJson => (Raise JSONDecodeError, w)
  | Some (Json v) => (Return v, w)
  end.

(** The document [json.dump] writes for a [Dict[str, int]].  The text of
    the file is not modelled: a file that [json.dump] wrote holds the
    document, and [json.load] gives it back.  Integers are unbounded and
    have a decimal text at any size (the interpreter's limit on the number
    of digits of a conversion is taken to be off). *)
Definition to_json (d : Dict.t Z) : value :=
  VDict (prod_map id VInt <$> d).

(** [json.dump(stock_data, fh, ...)] for [fh = open(file, "w", ...)]. *)
Definition open_json_dump (file : string) : M unit := λ w,
  if decide (file ∈ unwritable (fs w)) then (Raise OSError, w) else
  let f := fs w in
  (Return (),
   set_fs (FileSystem (<[file := Json (to_json (stock_data w))]> (files f))
                      (unreadable f) (unwritable f)) w).

(** [str(v)] of an [int] instance. *)
Definition str_of_int (v : value) : string :=
  match v with
  | VBool true => "True"
  | VBool false => "False"
  | VInt n => pretty n
  | _ => ""
  end.

(** [logs.append(line)] for the list at [l]. *)
Definition append (l : loc) (line : string) : M unit :=
  modify (λ w, set_heap (alter (λ ls, ls ++ [line]) l (heap w)) w).

(** ** The functions of the module *)

(** [add_item(item, qty, logs)].  When [logs] is [None] the line goes to a
    fresh list that nobody else holds. *)
Definition add_item (item qty : value) (logs : option loc) : M unit :=
  if negb (isinstance_str item) || negb (truthy item) then
    logging ERROR "add_item: 'item' must be a non-empty string" []
  else if negb (isinstance_int qty) then
    logging ERROR "add_item: 'qty' must be an integer" []
  else
    let name := as_str item in
    previous <- gets (λ w, default 0 (Dict.get (stock_data w) name)) ;;
    setitem name (previous + as_int qty) ;;;
    t <- gets now ;;
    match logs with
    | Some l => append l (t +:+ ": Added " +:+ str_of_int qty +:+ " of " +:+ name)
    | None => ret ()
    end ;;;
    new <- getitem name ;;
    logging INFO "Added %d of %s (previous: %d, new: %d)"
      [Obj qty; Obj item; Obj (VInt previous); Obj (VInt new)].

(** [remove_item(item, qty)] *)
Definition remove_item (item qty : value) : M unit :=
  if negb (isinstance_str item) || negb (truthy item) then
    logging ERROR "remove_item: 'item' must be a non-empty string" []
  else if negb (isinstance_int qty) then
    logging ERROR "remove_item: 'qty' must be an integer" []
  else
    let name := as_str item in
    found <- try_except (current <- getitem name ;; ret (Some current))
               [KeyError]
               (λ _, logging WARNING "remove_item: item '%s' not found in stock"
                       [Obj item] ;;;
                     ret None) ;;
    match found with
    | None => ret ()
    | Some current =>
        let new_qty := current - as_int qty in
        if new_qty <=? 0 then
          delitem name ;;;
          logging INFO
            "remove_item: removed item '%s' from stock (was %d, removed %d)"
            [Obj item; Obj (VInt current); Obj qty]
        else
          setitem name new_qty ;;;
          logging INFO "remove_item: decreased '%s' from %d to %d"
            [Obj item; Obj (VInt current); Obj (VInt new_qty)]
    end.

(** [get_qty(item)] *)
Definition get_qty (item : value) : M Z :=
  if negb (isinstance_str item) || negb (truthy item) then
    logging ERROR "get_qty: 'item' must be a non-empty string" [] ;;;
    ret 0
  else
    gets (λ w, default 0 (Dict.get (stock_data w) (as_str item))).

(** The loop of [load_data] over [data.items()]. *)
Fixpoint load_items (items : list (string * value)) : M unit :=
  match items with
  | [] => ret ()
  | (k, v) :: rest =>
      try_except (n <- lift (py_int v) ;; setitem k n) [TypeError; ValueError]
        (λ _, logging WARNING "load_data: skipping invalid qty for item '%s': %r"
                [Obj (VStr k); Obj v]) ;;;
      load_items rest
  end.

(** [load_data(file)] *)
Definition load_data (file : value) : M unit :=
  if negb (isinstance_str file) || negb (truthy file) then
    logging ERROR "load_data: 'file' must be a non-empty string" []
  else
    let path := as_str file in
    there <- os_path_exists path ;;
    if negb there then
      logging INFO "load_data: file '%s' not found; using empty inventory"
        [Obj file] ;;;
      clear
    else
      try_except
        (data <- open_json_load path ;;
         match data with
         | VDict d =>
             clear ;;;
             load_items d ;;;
             n <- gets (λ w, Z.of_nat (length (stock_data w))) ;;
             logging INFO "load_data: loaded %d items from %s"
               [Obj (VInt n); Obj file]
         | _ =>
             logging WARNING
               "load_data: file %s does not contain a JSON object; starting empty"
               [Obj file] ;;;
             clear
         end)
        [OSError; JSONDecodeError]
        (λ exc, logging ERROR "load_data: failed to read %s: %s"
                  [Obj file; Exc exc] ;;;
                clear).

(** [save_data(file)] *)
Definition save_data (file : value) : M unit :=
  if negb (isinstance_str file) || negb (truthy file) then
    logging ERROR "save_data: 'file' must be a non-empty string" []
  else
    try_except
      (open_json_dump (as_str file) ;;;
       n <- gets (λ w, Z.of_nat (length (stock_data w))) ;;
       logging INFO "save_data: saved %d items to %s" [Obj (VInt n); Obj file])
      [OSError]
      (λ exc, logging ERROR "save_data: failed to write %s: %s"
                [Obj file; Exc exc]).

(** [print_data()] *)
Definition print_data : M unit :=
  n <- gets (λ w, Z.of_nat (length (stock_data w))) ;;
  logging INFO "print_data: printing %d items" [Obj (VInt n)] ;;;
  print "Items Report" ;;;
  d <- gets stock_data ;;
  foldr (λ '(item, qty) k, print (item +:+ " -> " +:+ pretty qty) ;;; k)
    (ret ()) d.

(** [check_low_items(threshold)] *)
Definition check_low_items (threshold : value) : M (list string) :=
  if negb (isinstance_int threshold) then
    logging ERROR "check_low_items: 'threshold' must be an integer" [] ;;;
    ret []
  else
    gets (λ w, (filter (λ '(item, qty), qty < as_int threshold)
                  (stock_data w)).*1).

(** *** What [main] prints

    [repr] of a string: between single quotes, or between double quotes
    when the string has a single quote and no double quote; the quote in
    use and the backslash are escaped, tab, line feed and carriage return
    are written [\t], [\n], [\r], and the other control characters in
    hexadecimal. *)

Definition single_quote : ascii := ascii_of_N 39.
Definition double_quote : ascii := ascii_of_N 34.
Definition backslash : ascii := ascii_of_N 92.

Fixpoint contains (c : ascii) (s : string) : bool :=
  match s with
  | EmptyString => false
  | String c' s' => bool_decide (c' = c) || contains c s'
  end.

Definition hex_digit (n : Z) : ascii :=
  ascii_of_N (Z.to_N (if n <? 10 then 48 + n else 87 + n)).

Definition repr_char (quote c : ascii) : string :=
  if bool_decide (c = quote) || bool_decide (c = backslash) then
    String backslash (String c EmptyString)
  else if code c =? 9 then "\t"
  else if code c =? 10 then "\n"
  else if code c =? 13 then "\r"
  else if (code c <? 32) || (code c =? 127) then
    String backslash
      (String "x" (String (hex_digit (code c / 16))
         (String (hex_digit (code c mod 16)) EmptyString)))
  else String c EmptyString.

Fixpoint repr_chars (quote : ascii) (s : string) : string :=
  match s with
  | EmptyString => EmptyString
  | String c s' => repr_char quote c +:+ repr_chars quote s'
  end.

Definition repr_str (s : string) : string :=
  let quote :=
    if contains single_quote s && negb (contains double_quote s)
    then double_quote else single_quote in
  String quote (repr_chars quote s +:+ String quote EmptyString).

(** [", ".join(parts)] *)
Fixpoint join (parts : list string) : string :=
  match parts with
  | [] => ""
  | [p] => p
  | p :: rest => p +:+ ", " +:+ join rest
  end.

(** [str] of a list of strings. *)
Definition str_of_list (l : list string) : string :=
  "[" +:+ join (repr_str <$> l) +:+ "]".

(** *** The demonstration *)

(** [logs: List[str] = []]: a new list, at an address not in use. *)
Definition new_list : M loc := λ w,
  let l := fresh (dom (heap w)) in
  (Return l, set_heap (<[l := []]> (heap w)) w).

(** The lines of the list at [l]. *)
Definition read_list (l : loc) : M (list string) :=
  gets (λ w, default [] (heap w !! l)).

(** [_demo_actions()] *)
Definition _demo_actions : M unit :=
  logs <- new_list ;;
  add_item (VStr "apple") (VInt 10) (Some logs) ;;;
  add_item (VStr "banana") (VInt 2) (Some logs) ;;;
  add_item (VInt 123) (VStr "ten") (Some logs) ;;;
  remove_item (VStr "apple") (VInt 3) ;;;
  remove_item (VStr "orange") (VInt 1) ;;;
  lines <- read_list logs ;;
  logging DEBUG "Demo logs: %s" [Obj (VList (VStr <$> lines))].

(** [main()].  [logging.basicConfig] sets how records are shown, which the
    world does not hold.  The calls without arguments take the defaults:
    the file [inventory.json] and the threshold 5. *)
Definition main : M unit :=
  logging INFO "Starting inventory_system demo" [] ;;;
  load_data (VStr "inventory.json") ;;;
  _demo_actions ;;;
  apples <- get_qty (VStr "apple") ;;
  print ("Apple stock: " +:+ pretty apples) ;;;
  low <- check_low_items (VInt 5) ;;
  print ("Low items: " +:+ str_of_list low) ;;;
  save_data (VStr "inventory.json") ;;;
  print_data ;;;
  logging INFO "Removed unsafe eval() usage; program completed" [].

(** ** The properties stated about the ledger *)

(** No entry has a quantity of zero or less. *)
Definition positive (d : Dict.t Z) : Prop := Forall (λ kv, 0 < kv.2) d.

(** No key is the empty string. *)
Definition named (d : Dict.t Z) : Prop := Forall (λ kv, kv.1 ≠ "") d.

(** What the loop of [load_data] keeps of [data.items()], and what it skips:
    the items whose value [int] converts, each with the number it gives,
    and the items on which [int] raises. *)
Definition kept (items : list (string * value)) : list (string * Z) :=
  omap (λ kv, match py_int kv.2 with inr n => Some (kv.1, n) | inl _ => None end)
    items.

Definition skipped (items : list (string * value)) : list (string * value) :=
  omap (λ kv, match py_int kv.2 with inr _ => None | inl _ => Some kv end)
    items.

(** [int] does not fail on any of the values with an error that the loop
    of [load_data] lets through. *)
Definition no_overflow (items : list (string * value)) : Prop :=
  Forall (λ kv, py_int kv.2 ≠ inl OverflowError) items.

(** The operations that change the ledger. *)
Inductive operation :=
| Add (item qty : value) (logs : option loc)
| Remove (item qty : value)
| Load (file : value).

Definition perform (op : operation) : M unit :=
  match op with
  | Add item qty logs => add_item item qty logs
  | Remove item qty => remove_item item qty
  | Load file => load_data file
  end.


(** A world to run examples in: nothing stored, no file, nothing logged. *)
Definition empty_fs : filesystem := FileSystem ∅ ∅ ∅.
Definition empty_world : world := World [] empty_fs [] [] ∅ "2024-01-01 00:00:00".

(** The world in which [file] holds the JSON document [v]. *)
Definition world_with_file (file : string) (v : value) : world :=
  set_fs (FileSystem {[ file := Json v ]} ∅ ∅) empty_world.

(** The ledger [{"apple": 7}], no file. *)
Definition apple_world : world := set_stock_data [("apple", 7)] empty_world.

(** The ledger [{"apple": 7, "banana": 2}], no file. *)
Definition fruit_world : world :=
  set_stock_data [("apple", 7); ("banana", 2)] empty_world.

(** The empty ledger and the file [inventory.json] holding
    [{"a": "notanumber", "b": 5}]. *)
Definition partial_file_world : world :=
  world_with_file "inventory.json"
    (VDict [("a", VStr "notanumber"); ("b", VInt 5)]).

(** The empty ledger and the file [inventory.json] holding [{"": 5}]. *)
Definition unnamed_file_world : world :=
  world_with_file "inventory.json" (VDict [("", VInt 5)]).

(** The ledger after a valid [add_item] of [q] of [x], and after a valid
    [remove_item] of [q] of [x]: what the two functions do to the
    dictionary, without the logging. *)
Definition added (d : Dict.t Z) (x : string) (q : Z) : Dict.t Z :=
  Dict.set d x (default 0 (Dict.get d x) + q).

Definition removed (d : Dict.t Z) (x : string) (q : Z) : Dict.t Z :=
  match Dict.get d x with
  | None => d
  | Some c => if c - q <=? 0 then Dict.del d x else Dict.set d x (c - q)
  end.

(** The ledger after [_demo_actions]. *)
Definition demo_ledger (d : Dict.t Z) : Dict.t Z :=
  removed (removed (added (added d "apple" 10) "banana" 2) "apple" 3) "orange" 1.

(** * Proofs *)

(** ** [int] *)

Example int_of_str_examples :
  int_of_str " 5 " = Some 5 /\ int_of_str "-5" = Some (-5) /\
  int_of_str "1_000" = Some 1000 /\ int_of_str "007" = Some 7 /\
  int_of_str "5__0" = None /\ int_of_str "5_" = None /\
  int_of_str "- 5" = None /\ int_of_str "" = None /\
  int_of_str "5 5" = None /\ int_of_str "notanumber" = None.
Proof. repeat split; reflexivity. Qed.

Example py_int_examples :
  py_int (VFloat (FFinite (-37) (-3))) = inr (-4) /\
  py_int (VFloat (FFinite 5 2)) = inr 20 /\
  py_int (VBool true) = inr 1 /\ py_int VNone = inl TypeError /\
  py_int (VFloat (FInf false)) = inl OverflowError.
Proof. repeat split; reflexivity. Qed.

(** ** Dictionaries *)

Section dict_facts.
Context {V : Type}.
Implicit Types (d : Dict.t V) (k : string) (v : V).

Lemma get_set_eq d k v : Dict.get (Dict.set d k v) k = Some v.
Proof.
  induction d as [|[k' v'] d IH]; simpl.
  - by rewrite decide_True.
  - repeat (case_decide; simpl); congruence.
Qed.

Lemma get_set_ne d k k' v :
  k ≠ k' → Dict.get (Dict.set d k v) k' = Dict.get d k'.
Proof.
  intros Hne. induction d as [|[k0 v0] d IH]; simpl.
  - by rewrite decide_False.
  - repeat (case_decide; simpl); congruence.
Qed.

Lemma get_None d k : Dict.get d k = None ↔ k ∉ Dict.keys d.
Proof.
  unfold Dict.keys. induction d as [|[k' v'] d IH]; simpl.
  - split; [intros _; apply not_elem_of_nil | done].
  - rewrite not_elem_of_cons. case_decide; subst.
    + split; [done | intros [? _]; done].
    + rewrite IH. split; [intros ?; split; [congruence | done] | by intros [_ ?]].
Qed.



Lemma get_del_eq d k : Dict.get (Dict.del d k) k = None.
Proof.
  apply get_None. unfold Dict.keys, Dict.del.
  intros ([k' v'] & -> & Hin)%list_elem_of_fmap.
  apply list_elem_of_filter in Hin as [Hne _]. by apply Hne.
Qed.

Lemma get_del_ne d k k' :
  k ≠ k' → Dict.get (Dict.del d k) k' = Dict.get d k'.
Proof.
  intros Hne. unfold Dict.del.
  induction d as [|[k0 v0] d IH]; [done|].
  rewrite filter_cons. simpl. repeat case_decide; simpl;
    repeat case_decide; subst; try done; congruence.
Qed.

Lemma keys_set_present d k v :
  k ∈ Dict.keys d → Dict.keys (Dict.set d k v) = Dict.keys d.
Proof.
  unfold Dict.keys. induction d as [|[k' v'] d IH]; simpl.
  - by intros ?%elem_of_nil.
  - intros Hin. case_decide; subst; simpl; [done|].
    f_equal. apply IH. apply elem_of_cons in Hin as [|]; [congruence | done].
Qed.

Lemma set_fresh d k v : k ∉ Dict.keys d → Dict.set d k v = d ++ [(k, v)].
Proof.
  unfold Dict.keys. induction d as [|[k' v'] d IH]; simpl; [done|].
  rewrite not_elem_of_cons. intros [Hne Hnin].
  rewrite decide_False by congruence. by rewrite IH.
Qed.

Lemma wf_set d k v : Dict.wf d → Dict.wf (Dict.set d k v).
Proof.
  unfold Dict.wf. intros Hwf.
  destruct (decide (k ∈ Dict.keys d)) as [Hin | Hnin].
  - by rewrite keys_set_present.
  - rewrite set_fresh by done. unfold Dict.keys in *. rewrite fmap_app. simpl.
    apply NoDup_app. split_and!; [done | | apply NoDup_singleton].
    intros x Hx ->%list_elem_of_singleton. done.
Qed.

Lemma wf_del d k : Dict.wf d → Dict.wf (Dict.del d k).
Proof.
  unfold Dict.wf, Dict.keys, Dict.del.
  induction d as [|[k' v'] d IH]; simpl; [done|].
  intros [Hnin Hwf]%NoDup_cons. rewrite filter_cons. simpl.
  case_decide; simpl; [|by auto].
  apply NoDup_cons. split; [|by auto].
  intros ([k0 v0] & Heq & Hin)%list_elem_of_fmap. simpl in Heq. subst k0.
  apply list_elem_of_filter in Hin as [_ Hin].
  apply Hnin. apply list_elem_of_fmap. by exists (k', v0).
Qed.

Lemma Forall_set (P : string * V → Prop) d k v :
  Forall P d → P (k, v) → Forall P (Dict.set d k v).
Proof.
  intros Hd Hkv. induction Hd as [|[k' v'] d Hx Hd IH]; simpl.
  - by constructor.
  - case_decide; subst; by constructor.
Qed.

Lemma Forall_del (P : string * V → Prop) d k :
  Forall P d → Forall P (Dict.del d k).
Proof.
  unfold Dict.del. intros Hd. induction Hd as [|[k' v'] d Hx Hd IH]; [done|].
  rewrite filter_cons. case_decide; [by constructor | done].
Qed.
End dict_facts.

(** ** Running the functions *)

Arguments caught : simpl never.

Lemma invalid_name_iff (item : value) :
  negb (isinstance_str item) || negb (truthy item) = false ↔
  ∃ x, item = VStr x ∧ x ≠ "".
Proof.
  split.
  - destruct item as [| | | |s| |]; simpl; try done.
    intros Hs. exists s. split; [done|].
    intros ->. done.
  - intros (x & -> & Hx). simpl. by rewrite bool_decide_eq_false_2.
Qed.

Lemma valid_name (x : string) :
  x ≠ "" → negb (isinstance_str (VStr x)) || negb (truthy (VStr x)) = false.
Proof. intros Hx. apply invalid_name_iff. eauto. Qed.

(** Unfold the plumbing of a computation applied to a world. *)
Ltac run :=
  unfold after, result, bind, ret, raise, gets, modify, logging, print,
    setitem, clear, append, os_path_exists, lift; simpl.

(** [add_item] with a valid name and an [int] stores the sum and returns. *)
Lemma add_item_valid (x : string) (qty : value) (logs : option loc) (w : world) :
  x ≠ "" → isinstance_int qty = true →
  result (add_item (VStr x) qty logs) w = Return () ∧
  stock_data (after (add_item (VStr x) qty logs) w) =
    Dict.set (stock_data w) x (default 0 (Dict.get (stock_data w) x) + as_int qty).
Proof.
  intros Hx Hq. unfold add_item. rewrite valid_name, Hq by done. simpl.
  run. destruct logs as [l|]; run; unfold getitem; simpl;
    rewrite get_set_eq; done.
Qed.

(** With anything else [add_item] only logs an error. *)
Lemma add_item_invalid (item qty : value) (logs : option loc) (w : world) :
  negb (isinstance_str item) || negb (truthy item) = true ∨
  isinstance_int qty = false →
  ∃ m, add_item item qty logs w =
       (Return (), set_records (records w ++ [LogRecord ERROR m []]) w).
Proof.
  intros Hbad. unfold add_item.
  destruct (negb (isinstance_str item) || negb (truthy item)) eqn:Hitem.
  - eexists. reflexivity.
  - destruct Hbad as [? | ->]; [done|]. eexists. reflexivity.
Qed.

(** [remove_item] on a valid name that is absent only logs a warning. *)
Lemma remove_item_absent (x : string) (qty : value) (w : world) :
  x ≠ "" → isinstance_int qty = true → Dict.get (stock_data w) x = None →
  result (remove_item (VStr x) qty) w = Return () ∧
  stock_data (after (remove_item (VStr x) qty) w) = stock_data w.
Proof.
  intros Hx Hq Hget. unfold remove_item. rewrite valid_name, Hq by done. simpl.
  run. unfold try_except, bind, getitem. rewrite Hget. simpl. done.
Qed.

(** [remove_item] on a valid name that is present: the entry goes when the
    difference is zero or less, and holds the difference otherwise. *)
Lemma remove_item_present (x : string) (qty : value) (c : Z) (w : world) :
  x ≠ "" → isinstance_int qty = true → Dict.get (stock_data w) x = Some c →
  result (remove_item (VStr x) qty) w = Return () ∧
  stock_data (after (remove_item (VStr x) qty) w) =
    if c - as_int qty <=? 0 then Dict.del (stock_data w) x
    else Dict.set (stock_data w) x (c - as_int qty).
Proof.
  intros Hx Hq Hget. unfold remove_item. rewrite valid_name, Hq by done. simpl.
  run. unfold try_except, bind, getitem, ret. rewrite Hget. simpl.
  destruct (c - as_int qty <=? 0); run; [|done].
  unfold delitem. rewrite Hget. done.
Qed.

Lemma remove_item_invalid (item qty : value) (w : world) :
  negb (isinstance_str item) || negb (truthy item) = true ∨
  isinstance_int qty = false →
  ∃ m, remove_item item qty w =
       (Return (), set_records (records w ++ [LogRecord ERROR m []]) w).
Proof.
  intros Hbad. unfold remove_item.
  destruct (negb (isinstance_str item) || negb (truthy item)) eqn:Hitem.
  - eexists. reflexivity.
  - destruct Hbad as [? | ->]; [done|]. eexists. reflexivity.
Qed.

Lemma get_qty_valid (x : string) (w : world) :
  x ≠ "" →
  get_qty (VStr x) w = (Return (default 0 (Dict.get (stock_data w) x)), w).
Proof. intros Hx. unfold get_qty. by rewrite valid_name. Qed.

(** ** Loading *)

Lemma py_int_raises (v : value) (e : exn) :
  py_int v = inl e → e = TypeError ∨ e = ValueError ∨ e = OverflowError.
Proof.
  destruct v as [| | |[| |]|s| |]; simpl; try (intros [= <-]; auto); try done.
  destruct (int_of_str s); [done|]. intros [= <-]. auto.
Qed.




(** The loop, when it does not meet an overflow: it keeps the items that
    convert, in order, and logs one warning for each of the others. *)
Lemma load_items_run (items : list (string * value)) d f r o h t :
  no_overflow items →
  load_items items (World d f r o h t) =
    (Return (),
     World (Dict.update d (kept items)) f
       (r ++ ((λ kv, LogRecord WARNING
                       "load_data: skipping invalid qty for item '%s': %r"
                       [Obj (VStr kv.1); Obj kv.2]) <$> skipped items))
       o h t).
Proof.
  intros Hno. revert d r.
  induction Hno as [|[k v] items Hv Hno IH]; intros d r; simpl.
  - by rewrite app_nil_r.
  - unfold kept, skipped, bind, try_except in *. simpl in *.
    destruct (py_int v) as [e|n] eqn:Hint; simpl.
    + destruct (py_int_raises _ _ Hint) as [-> | [-> | ->]]; [| |done];
        simpl; unfold set_records; simpl; rewrite IH; by rewrite <- app_assoc.
    + unfold set_stock_data. simpl. by rewrite IH.
Qed.


Lemma load_data_invalid (file : value) (w : world) :
  negb (isinstance_str file) || negb (truthy file) = true →
  load_data file w =
    (Return (),
     set_records (records w ++
       [LogRecord ERROR "load_data: 'file' must be a non-empty string" []]) w).
Proof. intros Hbad. unfold load_data. by rewrite Hbad. Qed.

(** No file at [path]: the dictionary is emptied. *)
Lemma load_data_missing (path : string) (w : world) :
  path ≠ "" → files (fs w) !! path = None →
  result (load_data (VStr path)) w = Return () ∧
  stock_data (after (load_data (VStr path)) w) = [].
Proof.
  intros Hpath Hnone. unfold load_data. rewrite valid_name by done. simpl.
  run. rewrite Hnone. rewrite bool_decide_eq_false_2 by (by intros [? ?]).
  done.
Qed.

(** A readable file that holds a JSON object whose values do not overflow:
    the dictionary is rebuilt from the items that convert. *)
Lemma load_data_object (path : string) (items : list (string * value))
    (w : world) :
  path ≠ "" → path ∉ unreadable (fs w) →
  files (fs w) !! path = Some (Json (VDict items)) →
  no_overflow items →
  result (load_data (VStr path)) w = Return () ∧
  stock_data (after (load_data (VStr path)) w) = Dict.update [] (kept items) ∧
  records (after (load_data (VStr path)) w) =
    records w ++
    ((λ kv, LogRecord WARNING
              "load_data: skipping invalid qty for item '%s': %r"
              [Obj (VStr kv.1); Obj kv.2]) <$> skipped items) ++
    [LogRecord INFO "load_data: loaded %d items from %s"
       [Obj (VInt (Z.of_nat (length (Dict.update [] (kept items)))));
        Obj (VStr path)]].
Proof.
  intros Hpath Hread Hfile Hno. unfold load_data. rewrite valid_name by done.
  destruct w as [d f r o h t]. simpl in *. run. rewrite Hfile.
  rewrite bool_decide_eq_true_2 by eauto. simpl.
  unfold try_except, bind, open_json_load. simpl.
  rewrite decide_False by done. rewrite Hfile. simpl.
  unfold set_stock_data. simpl. rewrite load_items_run by done. simpl.
  unfold set_records. simpl. by rewrite <- app_assoc.
Qed.


(** ** Saving *)



(** * The ledger's invariants *)




(** * Adding and removing *)



(** C4.  For a non-empty name [x] stored with quantity [c] and an integer
    [qty] of at least [c], [remove_item(x, qty)] deletes the entry of [x],
    and [get_qty(x)] then returns zero. *)
Theorem remove_item_all (w : world) (x : string) (c : Z) (qty : value) :
  x ≠ "" → Dict.get (stock_data w) x = Some c →
  isinstance_int qty = true → c ≤ as_int qty →
  result (remove_item (VStr x) qty) w = Return () ∧
  (x ∉ Dict.keys (stock_data (after (remove_item (VStr x) qty) w))) ∧
  result (get_qty (VStr x)) (after (remove_item (VStr x) qty) w) = Return 0.
Proof.
  intros Hx Hget Hq Hle.
  destruct (remove_item_present x qty c w Hx Hq Hget) as [Hres Hstock].
  rewrite (proj2 (Z.leb_le _ _)) in Hstock by lia.
  split_and!; [done | |].
  - rewrite Hstock. apply get_None, get_del_eq.
  - unfold result. rewrite get_qty_valid by done. simpl.
    by rewrite Hstock, get_del_eq.
Qed.

Lemma remove_item_all_witness :
  "apple" ≠ "" ∧ Dict.get (stock_data fruit_world) "apple" = Some 7 ∧
  isinstance_int (VInt 9) = true ∧ 7 ≤ as_int (VInt 9) ∧
  result (remove_item (VStr "apple") (VInt 9)) fruit_world = Return () ∧
  ("apple" ∉ Dict.keys
     (stock_data (after (remove_item (VStr "apple") (VInt 9)) fruit_world))) ∧
  result (get_qty (VStr "apple"))
    (after (remove_item (VStr "apple") (VInt 9)) fruit_world) = Return 0.
Proof.
  split_and!; [done | reflexivity | reflexivity | unfold as_int; simpl; lia |..];
    apply (remove_item_all fruit_world "apple" 7 (VInt 9));
    first [done | reflexivity | unfold as_int; simpl; lia].
Defined.

(** C10.  For a non-empty name [x] stored with quantity [c] and a negative
    integer [qty] with [c - qty > 0], [remove_item(x, qty)] keeps the entry
    of [x] and stores [c - qty], which is more than [c]. *)
Theorem remove_item_negative (w : world) (x : string) (c qty : Z) :
  x ≠ "" → Dict.get (stock_data w) x = Some c → qty < 0 → 0 < c - qty →
  result (remove_item (VStr x) (VInt qty)) w = Return () ∧
  Dict.get (stock_data (after (remove_item (VStr x) (VInt qty)) w)) x =
    Some (c - qty) ∧
  c < c - qty.
Proof.
  intros Hx Hget Hneg Hpos.
  destruct (remove_item_present x (VInt qty) c w Hx eq_refl Hget)
    as [Hres Hstock].
  change (as_int (VInt qty)) with qty in Hstock.
  rewrite (proj2 (Z.leb_gt _ _)) in Hstock by lia.
  split_and!; [done | | lia].
  by rewrite Hstock, get_set_eq.
Qed.

Lemma remove_item_negative_witness :
  "apple" ≠ "" ∧ Dict.get (stock_data apple_world) "apple" = Some 7 ∧
  -3 < 0 ∧ 0 < 7 - -3 ∧
  result (remove_item (VStr "apple") (VInt (-3))) apple_world = Return () ∧
  Dict.get (stock_data (after (remove_item (VStr "apple") (VInt (-3))) apple_world))
    "apple" = Some (7 - -3) ∧
  7 < 7 - -3.
Proof.
  split_and!; [done | reflexivity | lia | lia |..];
    apply (remove_item_negative apple_world "apple" 7 (-3));
    first [done | reflexivity | lia].
Defined.

(** C6.  [add_item] and [remove_item] called with an item that is not a
    string, with the empty string, or with a quantity that is not an
    integer return without raising and change nothing but the logging
    output: the ledger, the files and the caller's list are as before. *)
Theorem invalid_arguments_change_nothing (w : world) (item qty : value)
    (logs : option loc) :
  isinstance_str item = false ∨ item = VStr "" ∨ isinstance_int qty = false →
  (result (add_item item qty logs) w = Return () ∧
   stock_data (after (add_item item qty logs) w) = stock_data w ∧
   fs (after (add_item item qty logs) w) = fs w ∧
   heap (after (add_item item qty logs) w) = heap w) ∧
  (result (remove_item item qty) w = Return () ∧
   stock_data (after (remove_item item qty) w) = stock_data w ∧
   fs (after (remove_item item qty) w) = fs w ∧
   heap (after (remove_item item qty) w) = heap w).
Proof.
  intros Hbad.
  assert (negb (isinstance_str item) || negb (truthy item) = true ∨
          isinstance_int qty = false) as Hbad'.
  { destruct Hbad as [-> | [-> | ->]]; [by left | by left | by right]. }
  unfold result, after.
  destruct (add_item_invalid item qty logs w Hbad') as [m ->].
  destruct (remove_item_invalid item qty w Hbad') as [m' ->].
  done.
Qed.

Lemma invalid_arguments_change_nothing_witness :
  (isinstance_str (VInt 123) = false ∨ VInt 123 = VStr "" ∨
   isinstance_int (VStr "ten") = false) ∧
  result (add_item (VInt 123) (VStr "ten") None) fruit_world = Return () ∧
  stock_data (after (add_item (VInt 123) (VStr "ten") None) fruit_world) =
    stock_data fruit_world.
Proof.
  split; [left; reflexivity|].
  destruct (invalid_arguments_change_nothing fruit_world (VInt 123) (VStr "ten")
              None) as [(Hres & Hstock & _) _]; [left; reflexivity|].
  exact (conj Hres Hstock).
Defined.

(** * Saving and loading *)





(** C7.  Loading a readable file that holds
    [{"a": "notanumber", "b": 5}] returns and leaves the ledger [{"b": 5}]:
    the loop logs a warning for ["a"], whose value [int] rejects, and keeps
    ["b"]. *)
Theorem load_data_skips_unconvertible (w : world) (path : string) :
  path ≠ "" → path ∉ unreadable (fs w) →
  files (fs w) !! path =
    Some (Json (VDict [("a", VStr "notanumber"); ("b", VInt 5)])) →
  result (load_data (VStr path)) w = Return () ∧
  stock_data (after (load_data (VStr path)) w) = [("b", 5)] ∧
  records (after (load_data (VStr path)) w) =
    records w ++
    [LogRecord WARNING "load_data: skipping invalid qty for item '%s': %r"
       [Obj (VStr "a"); Obj (VStr "notanumber")];
     LogRecord INFO "load_data: loaded %d items from %s"
       [Obj (VInt 1); Obj (VStr path)]].
Proof.
  intros Hpath Hrd Hfile.
  apply (load_data_object path _ w Hpath Hrd Hfile).
  repeat constructor; done.
Qed.

Lemma load_data_skips_unconvertible_witness :
  "inventory.json" ≠ "" ∧
  ("inventory.json" ∉ unreadable (fs partial_file_world)) ∧
  files (fs partial_file_world) !! "inventory.json" =
    Some (Json (VDict [("a", VStr "notanumber"); ("b", VInt 5)])) ∧
  stock_data (after (load_data (VStr "inventory.json")) partial_file_world) =
    [("b", 5)].
Proof.
  assert ("inventory.json" ∉ unreadable (fs partial_file_world)) as Hnot
    by (apply (bool_decide_unpack _); vm_compute; exact I).
  split_and!; [done | exact Hnot | reflexivity |].
  apply (load_data_skips_unconvertible partial_file_world "inventory.json");
    [done | exact Hnot | reflexivity].
Defined.

(** C9.  For a path at which there is no file, [load_data(path)] returns
    without raising and leaves the ledger empty. *)
Theorem load_data_no_file (w : world) (path : string) :
  path ≠ "" → files (fs w) !! path = None →
  result (load_data (VStr path)) w = Return () ∧
  stock_data (after (load_data (VStr path)) w) = [].
Proof. apply load_data_missing. Qed.

Lemma load_data_no_file_witness :
  "inventory.json" ≠ "" ∧ files (fs fruit_world) !! "inventory.json" = None ∧
  result (load_data (VStr "inventory.json")) fruit_world = Return () ∧
  stock_data (after (load_data (VStr "inventory.json")) fruit_world) = [].
Proof.
  split_and!; [done | reflexivity |..];
    apply (load_data_no_file fruit_world "inventory.json"); done.
Defined.

(** * Names *)

(** [add_item] and [remove_item] never bring the empty string as a key:
    both reject it before they touch the ledger. *)
Lemma named_add_remove (w : world) (item qty : value) (logs : option loc) :
  named (stock_data w) →
  named (stock_data (after (add_item item qty logs) w)) ∧
  named (stock_data (after (remove_item item qty) w)).
Proof.
  intros Hw.
  destruct (negb (isinstance_str item) || negb (truthy item)) eqn:Hitem.
  { unfold after.
    destruct (add_item_invalid item qty logs w) as [m ->]; [by left|].
    destruct (remove_item_invalid item qty w) as [m' ->]; [by left|]. done. }
  apply invalid_name_iff in Hitem as (x & -> & Hx).
  destruct (isinstance_int qty) eqn:Hq.
  2:{ unfold after.
      destruct (add_item_invalid (VStr x) qty logs w) as [m ->]; [by right|].
      destruct (remove_item_invalid (VStr x) qty w) as [m' ->]; [by right|].
      done. }
  destruct (add_item_valid x qty logs w Hx Hq) as [_ ->].
  split; [by apply Forall_set|].
  destruct (Dict.get (stock_data w) x) as [c|] eqn:Hget.
  - destruct (remove_item_present x qty c w Hx Hq Hget) as [_ ->].
    destruct (c - as_int qty <=? 0); [by apply Forall_del | by apply Forall_set].
  - by destruct (remove_item_absent x qty w Hx Hq Hget) as [_ ->].
Qed.

(** C5, on the code.  Loading a file that holds [{"": 5}] into the empty
    ledger returns and stores the empty string as a key with quantity 5.
    The entry is then out of reach of the functions that take a name:
    [get_qty("")] answers 0, and [remove_item("", 5)] and
    [add_item("", 1)] reject the name and leave the entry as it is. *)
Theorem load_data_stores_empty_name :
  named (stock_data unnamed_file_world) ∧
  result (load_data (VStr "inventory.json")) unnamed_file_world = Return () ∧
  stock_data (after (load_data (VStr "inventory.json")) unnamed_file_world) =
    [("", 5)] ∧
  ¬ named
      (stock_data (after (load_data (VStr "inventory.json")) unnamed_file_world)) ∧
  result (get_qty (VStr ""))
    (after (load_data (VStr "inventory.json")) unnamed_file_world) = Return 0 ∧
  stock_data
    (after (remove_item (VStr "") (VInt 5))
       (after (load_data (VStr "inventory.json")) unnamed_file_world)) =
    [("", 5)] ∧
  stock_data
    (after (add_item (VStr "") (VInt 1) None)
       (after (load_data (VStr "inventory.json")) unnamed_file_world)) =
    [("", 5)].
Proof.
  split_and!; try reflexivity.
  - constructor.
  - vm_compute. intros [Hne _]%Forall_cons. by apply Hne.
Qed.

(** * Listing *)

(** C8.  For a ledger and an integer threshold [t],
    [check_low_items(t)] returns, without changing anything, the names of
    the entries whose quantity is less than [t], in the order of the
    ledger: a name is listed exactly when an entry of that name has a
    quantity below [t], and the list is the ledger's list of keys with the
    other names left out.  On [{"apple": 7, "banana": 2}] with threshold 5
    it returns [["banana"]]. *)
Theorem check_low_items_below (w : world) (t : Z) :
  ∃ names : list string,
    check_low_items (VInt t) w = (Return names, w) ∧
    names = (filter (λ kv, kv.2 < t) (stock_data w)).*1 ∧
    (∀ x, x ∈ names ↔ ∃ q, (x, q) ∈ stock_data w ∧ q < t) ∧
    names `sublist_of` Dict.keys (stock_data w) ∧
    result (check_low_items (VInt 5)) fruit_world = Return ["banana"].
Proof.
  exists (filter (λ kv, kv.2 < t) (stock_data w)).*1.
  assert (∀ d : Dict.t Z,
            filter (λ '(item, qty), qty < t) d = filter (λ kv, kv.2 < t) d)
    as Hsame.
  { intros d. induction d as [|[k q] d IH]; [done|].
    rewrite !filter_cons. simpl. by rewrite IH. }
  split_and!.
  - unfold check_low_items. simpl. unfold gets.
    change (as_int (VInt t)) with t. by rewrite Hsame.
  - reflexivity.
  - intros x. rewrite list_elem_of_fmap. split.
    + intros ([k q] & -> & [Hlt Hin]%list_elem_of_filter). by exists q.
    + intros (q & Hin & Hlt). exists (x, q). split; [done|].
      by apply list_elem_of_filter.
  - unfold Dict.keys. apply fmap_sublist, sublist_filter.
  - reflexivity.
Qed.

(** * The demonstration run *)

(** From the empty ledger: add 10 apples and 2 bananas, try an addition
    with arguments of the wrong types, remove 3 apples and try to remove an
    orange.  Seven apples and two bananas are left, and only the bananas are
    below five. *)
Example demo_actions_ledger :
  let demo :=
    (add_item (VStr "apple") (VInt 10) None ;;;
     add_item (VStr "banana") (VInt 2) None ;;;
     add_item (VInt 123) (VStr "ten") None ;;;
     remove_item (VStr "apple") (VInt 3) ;;;
     remove_item (VStr "orange") (VInt 1))%py in
  stock_data (after demo empty_world) = [("apple", 7); ("banana", 2)] ∧
  result (demo ;;; get_qty (VStr "apple")) empty_world = Return 7 ∧
  result (demo ;;; check_low_items (VInt 5)) empty_world = Return ["banana"].
Proof. repeat split; reflexivity. Qed.

(** * Further properties of the module *)

(** ** What each function does to the whole world *)

Lemma add_item_run (x : string) (qty : value) (logs : option loc) d f r o h t :
  x ≠ "" → isinstance_int qty = true →
  add_item (VStr x) qty logs (World d f r o h t) =
    (Return (),
     World (Dict.set d x (default 0 (Dict.get d x) + as_int qty)) f
       (r ++ [LogRecord INFO "Added %d of %s (previous: %d, new: %d)"
                [Obj qty; Obj (VStr x); Obj (VInt (default 0 (Dict.get d x)));
                 Obj (VInt (default 0 (Dict.get d x) + as_int qty))]])
       o
       (match logs with
        | Some l =>
            alter (λ ls, ls ++ [t +:+ ": Added " +:+ str_of_int qty +:+ " of " +:+ x])
              l h
        | None => h
        end)
       t).
Proof.
  intros Hx Hq. unfold add_item. rewrite valid_name, Hq by done. simpl.
  run. destruct logs as [l|]; run; unfold getitem; simpl;
    rewrite get_set_eq; done.
Qed.

Lemma remove_item_run (x : string) (qty : value) d f r o h t :
  x ≠ "" → isinstance_int qty = true →
  remove_item (VStr x) qty (World d f r o h t) =
    (Return (),
     match Dict.get d x with
     | None =>
         World d f
           (r ++ [LogRecord WARNING "remove_item: item '%s' not found in stock"
                    [Obj (VStr x)]]) o h t
     | Some c =>
         if c - as_int qty <=? 0 then
           World (Dict.del d x) f
             (r ++ [LogRecord INFO
                      "remove_item: removed item '%s' from stock (was %d, removed %d)"
                      [Obj (VStr x); Obj (VInt c); Obj qty]]) o h t
         else
           World (Dict.set d x (c - as_int qty)) f
             (r ++ [LogRecord INFO "remove_item: decreased '%s' from %d to %d"
                      [Obj (VStr x); Obj (VInt c); Obj (VInt (c - as_int qty))]])
             o h t
     end).
Proof.
  intros Hx Hq. unfold remove_item. rewrite valid_name, Hq by done. simpl.
  run. unfold try_except, bind, getitem, ret. simpl.
  destruct (Dict.get d x) as [c|] eqn:Hget; simpl; [|done].
  destruct (c - as_int qty <=? 0); run; [|done].
  unfold delitem. simpl. by rewrite Hget.
Qed.

(** Every argument pair is either rejected or a name with an integer. *)
Lemma arguments_cases (item qty : value) :
  (negb (isinstance_str item) || negb (truthy item) = true ∨
   isinstance_int qty = false) ∨
  (∃ x, item = VStr x ∧ x ≠ "" ∧ isinstance_int qty = true).
Proof.
  destruct (negb (isinstance_str item) || negb (truthy item)) eqn:Hitem;
    [by left; left|].
  apply invalid_name_iff in Hitem as (x & -> & Hx).
  destruct (isinstance_int qty) eqn:Hq; [right; eauto | by left; right].
Qed.





Lemma keys_set_fresh {V} (d : Dict.t V) (k : string) (v : V) :
  k ∉ Dict.keys d → Dict.keys (Dict.set d k v) = Dict.keys d ++ [k].
Proof.
  intros Hk. rewrite set_fresh by done. unfold Dict.keys. by rewrite fmap_app.
Qed.

Lemma keys_del {V} (d : Dict.t V) (k : string) :
  Dict.keys (Dict.del d k) = filter (λ k', k' ≠ k) (Dict.keys d).
Proof.
  unfold Dict.keys, Dict.del. induction d as [|[k0 v0] d IH]; [done|].
  rewrite fmap_cons, !filter_cons. simpl.
  case_decide; simpl; [f_equal|]; exact IH.
Qed.

(** ** Adding and removing, further *)

(** X1.  [remove_item] with a valid name that is not in the ledger returns
    without raising; it logs one warning that carries the name and changes
    nothing else. *)
Theorem remove_item_missing_name (w : world) (x : string) (qty : value) :
  x ≠ "" → isinstance_int qty = true → Dict.get (stock_data w) x = None →
  remove_item (VStr x) qty w =
    (Return (),
     set_records
       (records w ++
        [LogRecord WARNING "remove_item: item '%s' not found in stock"
           [Obj (VStr x)]]) w).
Proof.
  intros Hx Hq Hget. destruct w as [d f r o h t]. simpl in *.
  rewrite remove_item_run by done. by rewrite Hget.
Qed.

Lemma remove_item_missing_name_witness :
  "orange" ≠ "" ∧ isinstance_int (VInt 1) = true ∧
  Dict.get (stock_data fruit_world) "orange" = None ∧
  remove_item (VStr "orange") (VInt 1) fruit_world =
    (Return (),
     set_records
       (records fruit_world ++
        [LogRecord WARNING "remove_item: item '%s' not found in stock"
           [Obj (VStr "orange")]]) fruit_world).
Proof.
  split_and!; [done | reflexivity | reflexivity |].
  apply (remove_item_missing_name fruit_world "orange" (VInt 1));
    [done | reflexivity | reflexivity].
Defined.

(** X2.  [add_item] and [remove_item] leave every other name as it is:
    whatever the arguments, the quantity stored under a name that is not
    the item is the same after the call. *)
Theorem other_names_untouched (w : world) (item qty : value)
    (logs : option loc) (y : string) :
  item ≠ VStr y →
  Dict.get (stock_data (after (add_item item qty logs) w)) y =
    Dict.get (stock_data w) y ∧
  Dict.get (stock_data (after (remove_item item qty) w)) y =
    Dict.get (stock_data w) y.
Proof.
  intros Hy. unfold after.
  destruct (arguments_cases item qty) as [Hbad | (x & -> & Hx & Hq)].
  - destruct (add_item_invalid item qty logs w Hbad) as [m ->].
    destruct (remove_item_invalid item qty w Hbad) as [m' ->]. done.
  - assert (x ≠ y) as Hne by congruence.
    destruct w as [d f r o h t].
    rewrite add_item_run, remove_item_run by done. simpl. split.
    + by apply get_set_ne.
    + destruct (Dict.get d x) as [c|]; [|done].
      destruct (c - as_int qty <=? 0); simpl;
        [by apply get_del_ne | by apply get_set_ne].
Qed.

Lemma other_names_untouched_witness :
  VStr "apple" ≠ VStr "banana" ∧
  Dict.get
    (stock_data (after (add_item (VStr "apple") (VInt 4) None) fruit_world))
    "banana" = Some 2.
Proof.
  split; [done|].
  exact (proj1 (other_names_untouched fruit_world (VStr "apple") (VInt 4) None
                  "banana" ltac:(done))).
Defined.





(** X5.  [add_item] never drops or reorders a name: the names before the
    call are the first names after it.  [remove_item] never brings or
    reorders a name: the names after the call are names from before, in
    the order they had. *)
Theorem names_keep_their_order (w : world) (item qty : value)
    (logs : option loc) :
  Dict.keys (stock_data w) `prefix_of`
    Dict.keys (stock_data (after (add_item item qty logs) w)) ∧
  Dict.keys (stock_data (after (remove_item item qty) w)) `sublist_of`
    Dict.keys (stock_data w).
Proof.
  unfold after.
  destruct (arguments_cases item qty) as [Hbad | (x & -> & Hx & Hq)].
  - destruct (add_item_invalid item qty logs w Hbad) as [m ->].
    destruct (remove_item_invalid item qty w Hbad) as [m' ->]. done.
  - destruct w as [d f r o h t].
    rewrite add_item_run, remove_item_run by done. simpl. split.
    + destruct (decide (x ∈ Dict.keys d)) as [Hin | Hnin].
      * by rewrite keys_set_present.
      * rewrite keys_set_fresh by done. by apply prefix_app_r.
    + destruct (Dict.get d x) as [c|] eqn:Hget; [|done].
      destruct (c - as_int qty <=? 0); simpl.
      * rewrite keys_del. apply sublist_filter.
      * rewrite keys_set_present; [done|].
        destruct (decide (x ∈ Dict.keys d)) as [|Hnin]; [done|].
        apply get_None in Hnin. congruence.
Qed.



(** ** Queries and reports *)

Lemma print_lines_run (lines : Dict.t Z) d f r o h t :
  foldr (λ '(item, qty) k, print (item +:+ " -> " +:+ pretty qty) ;;; k)
    (ret ()) lines (World d f r o h t) =
    (Return (),
     World d f r (o ++ ((λ kv, kv.1 +:+ " -> " +:+ pretty kv.2) <$> lines)) h t).
Proof.
  revert o. induction lines as [|[k q] lines IH]; intros o; simpl.
  - by rewrite app_nil_r.
  - run. unfold set_stdout. simpl. rewrite IH. by rewrite <- app_assoc.
Qed.

Lemma print_data_run d f r o h t :
  print_data (World d f r o h t) =
    (Return (),
     World d f
       (r ++ [LogRecord INFO "print_data: printing %d items"
                [Obj (VInt (Z.of_nat (length d)))]])
       (o ++ "Items Report" :: ((λ kv, kv.1 +:+ " -> " +:+ pretty kv.2) <$> d))
       h t).
Proof.
  unfold print_data. run. unfold set_stdout, set_records. simpl.
  rewrite print_lines_run. by rewrite <- app_assoc.
Qed.

Lemma filter_sublist_weaken {A} (P Q : A → Prop)
    `{∀ x, Decision (P x)} `{∀ x, Decision (Q x)} (l : list A) :
  (∀ x, P x → Q x) → filter P l `sublist_of` filter Q l.
Proof.
  intros HPQ. induction l as [|x l IH]; [done|].
  rewrite !filter_cons. destruct (decide (P x)) as [HP | HP].
  - rewrite decide_True by auto. by apply sublist_skip.
  - destruct (decide (Q x)); [by apply sublist_cons | done].
Qed.

Lemma low_filter (t : Z) (d : Dict.t Z) :
  filter (λ '(item, qty), qty < t) d = filter (λ kv, kv.2 < t) d.
Proof.
  induction d as [|[k q] d IH]; [done|].
  rewrite !filter_cons. simpl. by rewrite IH.
Qed.


(** X8.  An answer of [get_qty] other than zero is the quantity stored
    under the name asked for, which is a non-empty string: names that are
    rejected and names that are not found give zero. *)
Theorem get_qty_nonzero (w : world) (item : value) (q : Z) :
  result (get_qty item) w = Return q → q ≠ 0 →
  ∃ x, item = VStr x ∧ x ≠ "" ∧ Dict.get (stock_data w) x = Some q.
Proof.
  unfold result, get_qty.
  destruct (negb (isinstance_str item) || negb (truthy item)) eqn:Hitem.
  - run. by intros [= <-].
  - apply invalid_name_iff in Hitem as (x & -> & Hx). run.
    intros [= <-] Hq. exists x. split_and!; [done..|].
    by destruct (Dict.get (stock_data w) x).
Qed.

Lemma get_qty_nonzero_witness :
  result (get_qty (VStr "apple")) fruit_world = Return 7 ∧ 7 ≠ 0 ∧
  ∃ x, VStr "apple" = VStr x ∧ x ≠ "" ∧
       Dict.get (stock_data fruit_world) x = Some 7.
Proof.
  split_and!; [reflexivity | done |].
  apply (get_qty_nonzero fruit_world (VStr "apple") 7); [reflexivity | done].
Defined.

(** X9.  [check_low_items] with a threshold that is not an integer returns
    the empty list; it logs one error and changes nothing else. *)
Theorem check_low_items_invalid (w : world) (threshold : value) :
  isinstance_int threshold = false →
  check_low_items threshold w =
    (Return [],
     set_records
       (records w ++
        [LogRecord ERROR "check_low_items: 'threshold' must be an integer" []])
       w).
Proof. intros Hbad. unfold check_low_items. by rewrite Hbad. Qed.

Lemma check_low_items_invalid_witness :
  isinstance_int (VFloat (FFinite 5 0)) = false ∧
  result (check_low_items (VFloat (FFinite 5 0))) fruit_world = Return [].
Proof.
  split; [reflexivity|].
  unfold result.
  by rewrite (check_low_items_invalid fruit_world (VFloat (FFinite 5 0)) eq_refl).
Defined.

(** X10.  Raising the threshold never drops a name from the list of
    [check_low_items]: the names below [t1] are among the names below any
    [t2 ≥ t1], in the same order. *)
Theorem check_low_items_monotone (w : world) (t1 t2 : Z)
    (low1 low2 : list string) :
  t1 ≤ t2 →
  result (check_low_items (VInt t1)) w = Return low1 →
  result (check_low_items (VInt t2)) w = Return low2 →
  low1 `sublist_of` low2.
Proof.
  intros Hle. unfold result, check_low_items. simpl. unfold gets. simpl.
  change (as_int (VInt t1)) with t1. change (as_int (VInt t2)) with t2.
  rewrite !low_filter. intros [= <-] [= <-].
  apply fmap_sublist, filter_sublist_weaken. intros [k q]. simpl. lia.
Qed.

Lemma check_low_items_monotone_witness :
  5 ≤ 8 ∧
  result (check_low_items (VInt 5)) fruit_world = Return ["banana"] ∧
  result (check_low_items (VInt 8)) fruit_world = Return ["apple"; "banana"] ∧
  ["banana"] `sublist_of` ["apple"; "banana"].
Proof.
  split_and!; [lia | reflexivity | reflexivity |].
  apply (check_low_items_monotone fruit_world 5 8); [lia | reflexivity..].
Defined.


(** ** Saving, further *)

Lemma save_data_run (path : string) d f r o h t :
  path ≠ "" →
  save_data (VStr path) (World d f r o h t) =
    if decide (path ∈ unwritable f) then
      (Return (),
       World d f
         (r ++ [LogRecord ERROR "save_data: failed to write %s: %s"
                  [Obj (VStr path); Exc OSError]]) o h t)
    else
      (Return (),
       World d
         (FileSystem (<[path := Json (to_json d)]> (files f))
            (unreadable f) (unwritable f))
         (r ++ [LogRecord INFO "save_data: saved %d items to %s"
                  [Obj (VInt (Z.of_nat (length d))); Obj (VStr path)]]) o h t).
Proof.
  intros Hpath. unfold save_data. rewrite valid_name by done.
  unfold try_except, bind, open_json_dump. simpl.
  destruct (decide (path ∈ unwritable f)); reflexivity.
Qed.

(** X12.  [save_data] on a path that cannot be opened for writing returns
    without raising: it logs the [OSError] and leaves the ledger and every
    file as they were. *)
Theorem save_data_unwritable (w : world) (path : string) :
  path ≠ "" → path ∈ unwritable (fs w) →
  save_data (VStr path) w =
    (Return (),
     set_records
       (records w ++
        [LogRecord ERROR "save_data: failed to write %s: %s"
           [Obj (VStr path); Exc OSError]]) w).
Proof.
  intros Hpath Hw. destruct w as [d f r o h t]. simpl in *.
  rewrite save_data_run by done. by rewrite decide_True.
Qed.

Lemma save_data_unwritable_witness :
  "/inventory.json" ≠ "" ∧
  "/inventory.json" ∈
    unwritable (fs (set_fs (FileSystem ∅ ∅ {[ "/inventory.json" ]}) fruit_world)) ∧
  result (save_data (VStr "/inventory.json"))
    (set_fs (FileSystem ∅ ∅ {[ "/inventory.json" ]}) fruit_world) = Return ().
Proof.
  assert ("/inventory.json" ∈ ({[ "/inventory.json" ]} : gset string)) as Hin
    by (apply (bool_decide_unpack _); vm_compute; exact I).
  split_and!; [done | exact Hin |].
  unfold result.
  by rewrite (save_data_unwritable
                (set_fs (FileSystem ∅ ∅ {[ "/inventory.json" ]}) fruit_world)
                "/inventory.json" ltac:(done) Hin).
Defined.


(** X14.  [load_data] and [save_data] given something that is not a
    non-empty string return without raising and without looking at the
    files: each logs one error and changes nothing else. *)
Theorem invalid_file_argument (w : world) (file : value) :
  isinstance_str file = false ∨ file = VStr "" →
  load_data file w =
    (Return (),
     set_records
       (records w ++
        [LogRecord ERROR "load_data: 'file' must be a non-empty string" []]) w) ∧
  save_data file w =
    (Return (),
     set_records
       (records w ++
        [LogRecord ERROR "save_data: 'file' must be a non-empty string" []]) w).
Proof.
  intros Hbad.
  assert (negb (isinstance_str file) || negb (truthy file) = true) as Hfile
    by (destruct Hbad as [-> | ->]; done).
  unfold load_data, save_data. by rewrite Hfile.
Qed.

Lemma invalid_file_argument_witness :
  (isinstance_str VNone = false ∨ VNone = VStr "") ∧
  stock_data (after (load_data VNone) fruit_world) = stock_data fruit_world.
Proof.
  split; [by left|]. unfold after.
  by rewrite (proj1 (invalid_file_argument fruit_world VNone (or_introl eq_refl))).
Defined.

(** ** Loading, further *)

(** The loop touches nothing but the ledger and the logging output. *)
Lemma load_items_frame (items : list (string * value)) (w : world) :
  fs (after (load_items items) w) = fs w ∧
  heap (after (load_items items) w) = heap w ∧
  stdout (after (load_items items) w) = stdout w.
Proof.
  revert w. induction items as [|[k v] items IH]; intros w; [done|].
  unfold after in *. simpl. unfold bind, try_except.
  destruct (py_int v) as [e|n]; simpl; unfold raise; simpl.
  - destruct (caught e [TypeError; ValueError]); simpl; [|done].
    destruct (IH (set_records
                    (records w ++
                     [LogRecord WARNING
                        "load_data: skipping invalid qty for item '%s': %r"
                        [Obj (VStr k); Obj v]]) w)) as (-> & -> & ->).
    done.
  - destruct (IH (set_stock_data (Dict.set (stock_data w) k n) w))
      as (-> & -> & ->).
    done.
Qed.





(** X16.  [load_data] on a readable file whose bytes are not UTF-8 raises
    [UnicodeDecodeError] to the caller; the handler for [OSError] and
    [JSONDecodeError] does not take it, and the ledger is left as it was,
    not emptied. *)
Theorem load_data_undecodable (w : world) (path : string) :
  path ≠ "" → path ∉ unreadable (fs w) →
  files (fs w) !! path = Some BadEncoding →
  load_data (VStr path) w = (Raise UnicodeDecodeError, w).
Proof.
  intros Hpath Hrd Hfile. unfold load_data. rewrite valid_name by done.
  run. rewrite Hfile. rewrite bool_decide_eq_true_2 by eauto. simpl.
  unfold try_except, bind, open_json_load.
  rewrite decide_False by done. by rewrite Hfile.
Qed.

Lemma load_data_undecodable_witness :
  "inventory.json" ≠ "" ∧
  ("inventory.json" ∉
     unreadable (fs (set_fs (FileSystem {[ "inventory.json" := BadEncoding ]} ∅ ∅)
                       fruit_world))) ∧
  files (fs (set_fs (FileSystem {[ "inventory.json" := BadEncoding ]} ∅ ∅)
               fruit_world)) !! "inventory.json" = Some BadEncoding ∧
  result (load_data (VStr "inventory.json"))
    (set_fs (FileSystem {[ "inventory.json" := BadEncoding ]} ∅ ∅) fruit_world) =
    Raise UnicodeDecodeError.
Proof.
  assert ("inventory.json" ∉ (∅ : gset string)) as Hnot
    by (apply (bool_decide_unpack _); vm_compute; exact I).
  split_and!; [done | exact Hnot | reflexivity |].
  unfold result.
  by rewrite (load_data_undecodable
                (set_fs (FileSystem {[ "inventory.json" := BadEncoding ]} ∅ ∅)
                   fruit_world)
                "inventory.json" ltac:(done) Hnot eq_refl).
Defined.







(** The operations on the ledger leave the file system alone. *)
Lemma perform_fs (op : operation) (w : world) :
  fs (after (perform op) w) = fs w.
Proof.
  unfold after. destruct op as [item qty logs | item qty | file]; simpl.
  - destruct (arguments_cases item qty) as [Hbad | (x & -> & Hx & Hq)].
    + by destruct (add_item_invalid item qty logs w Hbad) as [m ->].
    + destruct w as [d f r o h t]. by rewrite add_item_run.
  - destruct (arguments_cases item qty) as [Hbad | (x & -> & Hx & Hq)].
    + by destruct (remove_item_invalid item qty w Hbad) as [m ->].
    + destruct w as [d f r o h t]. rewrite remove_item_run by done. simpl.
      destruct (Dict.get d x) as [c|]; [|done].
      by destruct (c - as_int qty <=? 0).
  - unfold load_data.
    destruct (negb (isinstance_str file) || negb (truthy file)); [done|].
    run. destruct (bool_decide _); simpl; [|done].
    unfold try_except, bind, open_json_load.
    destruct (decide (as_str file ∈ unreadable (fs w))); simpl; [done|].
    destruct (files (fs w) !! as_str file) as [[| |v]|]; simpl; try done.
    destruct v as [| | | | | |items]; simpl; try done.
    destruct (load_items_frame items (set_stock_data [] w)) as (Hfs & _ & _).
    unfold after in Hfs.
    destruct (load_items items (set_stock_data [] w)) as [[[]|e] w'];
      simpl in *; [done|].
    by destruct (caught e [OSError; JSONDecodeError]).
Qed.

(** X20.  Adding, removing and loading never write: whatever the
    arguments, and whether the call returns or raises, the files and their
    permissions are the same after [add_item], [remove_item] and
    [load_data]. *)
Theorem changes_keep_files (op : operation) (w : world) :
  fs (after (perform op) w) = fs w.
Proof. apply perform_fs. Qed.

(** ** The demonstration and [main] *)

Arguments add_item : simpl never.
Arguments remove_item : simpl never.
Arguments load_data : simpl never.
Arguments save_data : simpl never.
Arguments print_data : simpl never.
Arguments _demo_actions : simpl never.

Lemma remove_item_removed (x : string) (qty : value) d f r o h t :
  x ≠ "" → isinstance_int qty = true →
  ∃ rec, remove_item (VStr x) qty (World d f r o h t) =
           (Return (), World (removed d x (as_int qty)) f (r ++ [rec]) o h t).
Proof.
  intros Hx Hq. rewrite remove_item_run by done. unfold removed.
  destruct (Dict.get d x) as [c|]; [|by eexists].
  destruct (c - as_int qty <=? 0); by eexists.
Qed.

Lemma get_added (d : Dict.t Z) (x y : string) (q : Z) :
  Dict.get (added d x q) y =
    if decide (x = y) then Some (default 0 (Dict.get d x) + q) else Dict.get d y.
Proof.
  unfold added. case_decide; subst; [apply get_set_eq | by apply get_set_ne].
Qed.

Lemma get_removed (d : Dict.t Z) (x y : string) (q : Z) :
  Dict.get (removed d x q) y =
    if decide (x = y) then
      match Dict.get d x with
      | Some c => if c - q <=? 0 then None else Some (c - q)
      | None => None
      end
    else Dict.get d y.
Proof.
  unfold removed. destruct (Dict.get d x) as [c|] eqn:Hget.
  - destruct (c - q <=? 0); case_decide; subst;
      auto using get_del_eq, get_del_ne, get_set_eq, get_set_ne.
  - case_decide; subst; done.
Qed.

(** [_demo_actions] on any world: it returns, the ledger becomes
    [demo_ledger], the list it made holds the lines of the two additions
    that were accepted, and the last record is the debug record with those
    lines. *)
Lemma demo_actions_run d f r o h t :
  ∃ r' h',
    _demo_actions (World d f r o h t) =
      (Return (), World (demo_ledger d) f r' o h' t) ∧
    h' !! fresh (dom h) =
      Some [t +:+ ": Added 10 of apple"; t +:+ ": Added 2 of banana"] ∧
    (∀ l, l ≠ fresh (dom h) → h' !! l = h !! l) ∧
    last r' =
      Some (LogRecord DEBUG "Demo logs: %s"
              [Obj (VList [VStr (t +:+ ": Added 10 of apple");
                           VStr (t +:+ ": Added 2 of banana")])]).
Proof.
  unfold _demo_actions, bind, new_list, set_heap. simpl.
  rewrite (add_item_run "apple") by done.
  rewrite (add_item_run "banana") by done.
  unfold set_records. simpl.
  edestruct (remove_item_removed "apple" (VInt 3)) as [rec1 ->];
    [done | reflexivity |].
  edestruct (remove_item_removed "orange" (VInt 1)) as [rec2 ->];
    [done | reflexivity |].
  run. unfold set_records. simpl.
  rewrite !lookup_alter_eq, lookup_insert_eq. simpl.
  eexists _, _. split_and!.
  - reflexivity.
  - simpl. by rewrite !lookup_alter_eq, lookup_insert_eq.
  - intros l Hl. simpl. by rewrite !lookup_alter_ne, lookup_insert_ne.
  - simpl. by rewrite last_snoc.
Qed.

(** [load_data] touches nothing but the ledger and the logging output. *)
Lemma load_data_frame (file : value) (w : world) :
  fs (after (load_data file) w) = fs w ∧
  heap (after (load_data file) w) = heap w ∧
  stdout (after (load_data file) w) = stdout w.
Proof.
  unfold after, load_data.
  destruct (negb (isinstance_str file) || negb (truthy file)); [done|].
  run. destruct (bool_decide _); simpl; [|done].
  unfold try_except, bind, open_json_load.
  destruct (decide (as_str file ∈ unreadable (fs w))); simpl; [done|].
  destruct (files (fs w) !! as_str file) as [[| |v]|]; simpl; try done.
  destruct v as [| | | | | |items]; simpl; try done.
  pose proof (load_items_frame items (set_stock_data [] w)) as Hframe.
  unfold after in Hframe.
  destruct (load_items items (set_stock_data [] w)) as [[[]|e] w'];
    simpl in *; [done|].
  by destruct (caught e [OSError; JSONDecodeError]).
Qed.

(** What the loop gives and stores depends on the ledger it starts from
    and on the items only. *)
Lemma load_items_indep (items : list (string * value)) (w1 w2 : world) :
  stock_data w1 = stock_data w2 →
  result (load_items items) w1 = result (load_items items) w2 ∧
  stock_data (after (load_items items) w1) =
    stock_data (after (load_items items) w2).
Proof.
  revert w1 w2. induction items as [|[k v] items IH]; intros w1 w2 Hsame;
    [done|].
  unfold result, after in *. simpl. unfold bind, try_except.
  destruct (py_int v) as [e|n]; simpl; unfold raise; simpl.
  - destruct (caught e [TypeError; ValueError]); simpl; [|done].
    by apply IH.
  - apply IH. simpl. by rewrite Hsame.
Qed.

(** What [load_data] gives and stores does not depend on what has been
    logged. *)
Lemma load_data_records (file : value) (r : list record) (w : world) :
  result (load_data file) (set_records r w) = result (load_data file) w ∧
  stock_data (after (load_data file) (set_records r w)) =
    stock_data (after (load_data file) w).
Proof.
  unfold result, after, load_data.
  destruct (negb (isinstance_str file) || negb (truthy file)); [done|].
  run. destruct (bool_decide _); simpl; [|done].
  unfold try_except, bind, open_json_load. simpl.
  destruct (decide (as_str file ∈ unreadable (fs w))); simpl; [done|].
  destruct (files (fs w) !! as_str file) as [[| |v]|]; simpl; try done.
  destruct v as [| | | | | |items]; simpl; try done.
  destruct (load_items_indep items
              (set_stock_data [] (set_records r w)) (set_stock_data [] w))
    as [Hres Hstock]; [done|].
  unfold result, after in Hres, Hstock.
  destruct (load_items items (set_stock_data [] (set_records r w)))
    as [[[]|e1] w1];
    destruct (load_items items (set_stock_data [] w)) as [[[]|e2] w2];
    simpl in *; try done.
  injection Hres as ->.
  destruct (caught e2 [OSError; JSONDecodeError]); done.
Qed.

(** X21.  [_demo_actions] on any ledger returns without raising.  It
    leaves 2 more bananas than before, 7 more apples (or no apples, when
    that is zero or less), one orange less (or none, when that is zero or
    less), and every other name, every file and every list of the caller
    as they were. *)
Theorem demo_actions_effect (w : world) :
  let before := stock_data w in
  let after_ := stock_data (after _demo_actions w) in
  result _demo_actions w = Return () ∧
  Dict.get after_ "banana" = Some (default 0 (Dict.get before "banana") + 2) ∧
  Dict.get after_ "apple" =
    (if default 0 (Dict.get before "apple") + 10 - 3 <=? 0 then None
     else Some (default 0 (Dict.get before "apple") + 10 - 3)) ∧
  Dict.get after_ "orange" =
    match Dict.get before "orange" with
    | Some c => if c - 1 <=? 0 then None else Some (c - 1)
    | None => None
    end ∧
  (∀ y, y ≠ "apple" → y ≠ "banana" → y ≠ "orange" →
        Dict.get after_ y = Dict.get before y) ∧
  fs (after _demo_actions w) = fs w ∧
  (∀ l, is_Some (heap w !! l) → heap (after _demo_actions w) !! l = heap w !! l).
Proof.
  intros before after_. subst before after_. unfold result, after.
  destruct w as [d f r o h t].
  destruct (demo_actions_run d f r o h t) as (r' & h' & -> & _ & Hheap & _).
  simpl. unfold demo_ledger. split_and!; try done.
  - rewrite !get_removed, !get_added. by repeat (case_decide; try done).
  - rewrite !get_removed, !get_added. by repeat (case_decide; try done).
  - rewrite !get_removed, !get_added. by repeat (case_decide; try done).
  - intros y Ha Hb Ho. rewrite !get_removed, !get_added.
    by repeat (case_decide; try done).
  - intros l Hl. apply Hheap. intros ->.
    apply (is_fresh (dom h)). by apply elem_of_dom.
Qed.

(** [main], step by step, from a world on which [load_data] returns. *)
Lemma main_run (w : world) :
  result (load_data (VStr "inventory.json")) w = Return () →
  let final :=
    demo_ledger (stock_data (after (load_data (VStr "inventory.json")) w)) in
  result main w = Return () ∧
  stock_data (after main w) = final ∧
  stdout (after main w) =
    stdout w ++
    ["Apple stock: " +:+ pretty (default 0 (Dict.get final "apple"));
     "Low items: " +:+ str_of_list (filter (λ kv, kv.2 < 5) final).*1;
     "Items Report"] ++
    ((λ kv, kv.1 +:+ " -> " +:+ pretty kv.2) <$> final) ∧
  ("inventory.json" ∉ unwritable (fs w) →
   files (fs (after main w)) !! "inventory.json" = Some (Json (to_json final))) ∧
  ("inventory.json" ∈ unwritable (fs w) → fs (after main w) = fs w).
Proof.
  intros Hload final. subst final. unfold result, after, main, bind in *.
  unfold logging at 1, modify. simpl.
  pose proof (load_data_records (VStr "inventory.json")
                (records w ++
                 [LogRecord INFO "Starting inventory_system demo" []]) w)
    as [Hres Hstock].
  pose proof (load_data_frame (VStr "inventory.json")
                (set_records
                   (records w ++
                    [LogRecord INFO "Starting inventory_system demo" []]) w))
    as (Hfs & _ & Hout).
  unfold result, after in Hres, Hstock, Hfs, Hout.
  rewrite Hload in Hres. rewrite <- Hstock.
  destruct (load_data (VStr "inventory.json") (set_records _ w))
    as [[[]|e] [d1 f1 r1 o1 h1 t1]]; simpl in *; [|done].
  subst f1 o1.
  destruct (demo_actions_run d1 (fs w) r1 (stdout w) h1 t1)
    as (r2 & h2 & -> & _).
  simpl. run.
  unfold set_stdout, check_low_items. simpl. run.
  change (as_int (VInt 5)) with 5. rewrite low_filter.
  rewrite save_data_run by done.
  destruct (decide ("inventory.json" ∈ unwritable (fs w))) as [Hin | Hnin];
    rewrite print_data_run; simpl; unfold set_records; simpl;
    rewrite <- !app_assoc; simpl; split_and!; try done.
  intros _. apply lookup_insert_eq.
Qed.



(** X23.  The first run: when there is no [inventory.json] and the path
    can be opened for writing, [main] returns, whatever the ledger held;
    it leaves 7 apples and 2 bananas in the ledger and in a new
    [inventory.json], and prints the stock of apples, the one low item and
    the report. *)
Theorem main_first_run (w : world) :
  files (fs w) !! "inventory.json" = None →
  "inventory.json" ∉ unwritable (fs w) →
  result main w = Return () ∧
  stock_data (after main w) = [("apple", 7); ("banana", 2)] ∧
  stdout (after main w) =
    stdout w ++
    ["Apple stock: 7"; "Low items: ['banana']"; "Items Report";
     "apple -> 7"; "banana -> 2"] ∧
  files (fs (after main w)) !! "inventory.json" =
    Some (Json (VDict [("apple", VInt 7); ("banana", VInt 2)])).
Proof.
  intros Hnone Hwr.
  destruct (load_data_missing "inventory.json" w ltac:(done) Hnone)
    as [Hload Hempty].
  destruct (main_run w Hload) as (Hres & Hstock & Hout & Hfile & _).
  rewrite Hempty in Hstock, Hout, Hfile.
  split_and!; [exact Hres | exact Hstock | exact Hout | exact (Hfile Hwr)].
Qed.

Lemma main_first_run_witness :
  files (fs fruit_world) !! "inventory.json" = None ∧
  ("inventory.json" ∉ unwritable (fs fruit_world)) ∧
  stock_data (after main fruit_world) = [("apple", 7); ("banana", 2)].
Proof.
  assert ("inventory.json" ∉ unwritable (fs fruit_world)) as Hnot
    by (apply (bool_decide_unpack _); vm_compute; exact I).
  split_and!; [reflexivity | exact Hnot |].
  exact (proj1 (proj2 (main_first_run fruit_world eq_refl Hnot))).
Defined.

(** ** Loading an object, entry by entry *)







(** X26.  [remove_item] of less than what is stored keeps the entry where
    it stands and stores the difference: for a name stored with [c] and an
    integer [qty < c], the quantity afterwards is [c - qty] and the names
    of the ledger are the same, in the same order. *)
Theorem remove_item_some (w : world) (x : string) (c : Z) (qty : value) :
  x ≠ "" → Dict.get (stock_data w) x = Some c →
  isinstance_int qty = true → as_int qty < c →
  result (remove_item (VStr x) qty) w = Return () ∧
  Dict.get (stock_data (after (remove_item (VStr x) qty) w)) x =
    Some (c - as_int qty) ∧
  Dict.keys (stock_data (after (remove_item (VStr x) qty) w)) =
    Dict.keys (stock_data w).
Proof.
  intros Hx Hget Hq Hlt. unfold result, after.
  destruct w as [d f r o h t]. simpl in *.
  rewrite remove_item_run by done. rewrite Hget.
  rewrite (proj2 (Z.leb_gt _ _)) by lia. simpl.
  split_and!; [done | apply get_set_eq |].
  apply keys_set_present.
  destruct (decide (x ∈ Dict.keys d)) as [|Hnin]; [done|].
  apply get_None in Hnin. congruence.
Qed.

Lemma remove_item_some_witness :
  "apple" ≠ "" ∧ Dict.get (stock_data fruit_world) "apple" = Some 7 ∧
  isinstance_int (VInt 3) = true ∧ as_int (VInt 3) < 7 ∧
  Dict.get (stock_data (after (remove_item (VStr "apple") (VInt 3)) fruit_world))
    "apple" = Some (7 - as_int (VInt 3)).
Proof.
  assert (as_int (VInt 3) < 7) as Hlt by reflexivity.
  split_and!; [done | reflexivity | reflexivity | exact Hlt |].
  exact (proj1 (proj2 (remove_item_some fruit_world "apple" 7 (VInt 3)
                          ltac:(done) eq_refl eq_refl Hlt))).
Defined.
